(** * The ODBC connection end point of the C++ platform

    A shallow embedding of
    [modules/platforms/cpp/odbc/include/ignite/odbc/end_point.h]
    (namespace [ignite::odbc]) and the properties its specification states.

    The header declares one struct, [EndPoint], with two public data members
    ([std::string host] and [uint16_t port]) and two constructors.  A
    [std::string] is a sequence of 8-bit characters, which is what Rocq's
    [string] is; a [uint16_t] is an integer in [0, 65535], embedded in [Z]
    with the conversion to the type written out as [to_uint16]. *)

From Stdlib Require Import ZArith Lia Bool List.
From Stdlib Require Import Strings.Ascii Strings.String.
Import ListNotations.

Local Open Scope string_scope.
Local Open Scope Z_scope.

(** ** Unsigned 16-bit integers *)

(** The number of values of [uint16_t]. *)
Definition uint16_modulus : Z := 65536.

(** The largest [uint16_t]. *)
Definition UINT16_MAX : Z := 65535.

(** [z] is a value of [uint16_t]. *)
Definition is_uint16 (z : Z) : Prop := 0 <= z <= UINT16_MAX.

(** Conversion of an integer to [uint16_t], as done on an argument passed for
    a [uint16_t] parameter: the value modulo 2^16. *)
Definition to_uint16 (z : Z) : Z := z mod uint16_modulus.

(** Value-initialisation [port()] of a [uint16_t] member. *)
Definition uint16_value_init : Z := 0.

(** Value-initialisation [host()] of a [std::string] member: the default
    constructor of [std::string], which gives the empty string. *)
Definition string_value_init : string := EmptyString.

(** ** The struct *)

(** [struct EndPoint]: the remote host and the TCP port. *)
Record EndPoint : Type := {
  host : string;  (* std::string host; *)
  port : Z        (* uint16_t port; *)
}.

(** [EndPoint::EndPoint()]: both members are value-initialised and the body is
    empty. *)
Definition EndPoint_default : EndPoint :=
  {| host := string_value_init; port := uint16_value_init |}.

(** [EndPoint::EndPoint(const std::string& host, uint16_t port)]: [host] is
    copy-constructed from the argument, [port] is initialised with the
    argument, which the parameter type has converted to [uint16_t]; the body is
    empty. *)
Definition EndPoint_make (h : string) (p : Z) : EndPoint :=
  {| host := h; port := to_uint16 p |}.

(** The end points that a constructor of the struct produces. *)
Inductive constructed : EndPoint -> Prop :=
| constructed_default : constructed EndPoint_default
| constructed_make (h : string) (p : Z) : constructed (EndPoint_make h p).

(** ** Calls that may leave by an exception *)

(** The outcome of a C++ call: a returned value, or an exception with its
    message. *)
Inductive outcome (A : Type) : Type :=
| Returns (a : A)
| Throws (what : string).
Arguments Returns {A} a.
Arguments Throws {A} what.

(** A constructor call seen as a call that may throw.  Neither constructor has
    a [throw] statement or a check of its arguments: the member initialisers
    run and the empty body returns. *)
Definition construct_default : outcome EndPoint :=
  Returns EndPoint_default.

Definition construct (h : string) (p : Z) : outcome EndPoint :=
  Returns (EndPoint_make h p).

(** [succeeded o]: the call returned. *)
Definition succeeded {A : Type} (o : outcome A) : bool :=
  match o with
  | Returns _ => true
  | Throws _ => false
  end.

(** ** Accesses to an end point object *)

(** What client code can do with an object [ep] of the struct after its
    construction.  [host] and [port] are public data members (the members of a
    [struct] are public unless stated otherwise) and neither is declared
    [const], so both can be read and assigned; the struct declares no
    assignment operator, so the implicit member-wise copy assignment applies
    to the whole object. *)
Inductive access : Type :=
| ReadHost                      (* ep.host *)
| ReadPort                      (* ep.port *)
| WriteHost (s : string)        (* ep.host = s; *)
| WritePort (z : Z)             (* ep.port = z; *)
| CopyAssign (e : EndPoint).    (* ep = e; *)

(** The value an access yields. *)
Inductive value : Type :=
| VHost (s : string)
| VPort (z : Z)
| VNone.

(** One access: the value it yields and the object after it.  An assignment to
    [port] converts the assigned value to [uint16_t]. *)
Definition perform (a : access) (ep : EndPoint) : value * EndPoint :=
  match a with
  | ReadHost => (VHost (host ep), ep)
  | ReadPort => (VPort (port ep), ep)
  | WriteHost s => (VNone, {| host := s; port := port ep |})
  | WritePort z => (VNone, {| host := host ep; port := to_uint16 z |})
  | CopyAssign e => (VNone, e)
  end.

(** The object after a sequence of accesses, first to last: its lifetime. *)
Fixpoint lifetime (l : list access) (ep : EndPoint) : EndPoint :=
  match l with
  | [] => ep
  | a :: l' => lifetime l' (snd (perform a ep))
  end.

(** An access that assigns nothing. *)
Definition is_read (a : access) : bool :=
  match a with
  | ReadHost | ReadPort => true
  | WriteHost _ | WritePort _ | CopyAssign _ => false
  end.

(** An access the types allow.  The right-hand side of a copy assignment is an
    [EndPoint] object itself, so its [port] member holds a [uint16_t]; the
    other accesses take any string, or any integer, which the assignment
    converts. *)
Definition well_typed (a : access) : Prop :=
  match a with
  | CopyAssign e => is_uint16 (port e)
  | ReadHost | ReadPort | WriteHost _ | WritePort _ => True
  end.

(** ** Equality of end points *)

(** Modelled from the spec: the equality operation on end points.  The header
    declares no [operator==] for [EndPoint]; the specification asks for one
    under which two end points are equal iff their [host] strings are equal
    (exact, case-sensitive) and their [port] values are equal.  [String.eqb]
    compares character by character, as [operator==] of [std::string] does. *)
Definition EndPoint_eqb (e1 e2 : EndPoint) : bool :=
  String.eqb (host e1) (host e2) && Z.eqb (port e1) (port e2).

(** ** The companion parser *)

(** Modelled from the spec: the result of the text-to-end-point parser, which
    is an external collaborator and is not part of the header.  It yields an
    end point, or a [ParseError] that lists the offending text. *)
Inductive parse_result : Type :=
| Parsed (e : EndPoint)
| ParseError (offending : string).

(** The character that separates the host from the port. *)
Definition colon : ascii := ":"%char.

(** [split_last_colon s]: the text before and the text after the last [':'] of
    [s], or [None] when [s] has none. *)
Fixpoint split_last_colon (s : string) : option (string * string) :=
  match s with
  | EmptyString => None
  | String c rest =>
      match split_last_colon rest with
      | Some (h, p) => Some (String c h, p)
      | None => if Ascii.eqb c colon then Some (EmptyString, rest) else None
      end
  end.

(** [c] is one of ['0'] .. ['9']. *)
Definition is_digit (c : ascii) : bool :=
  let n := Z.of_nat (nat_of_ascii c) in (48 <=? n) && (n <=? 57).

(** The value of a decimal digit. *)
Definition digit_value (c : ascii) : Z := Z.of_nat (nat_of_ascii c) - 48.

(** The number that a string of decimal digits denotes, most significant digit
    first, continuing from [acc]; [None] at a character that is not a digit. *)
Fixpoint decimal_from (acc : Z) (s : string) : option Z :=
  match s with
  | EmptyString => Some acc
  | String c rest =>
      if is_digit c then decimal_from (10 * acc + digit_value c) rest else None
  end.

(** The number a non-empty string of decimal digits denotes. *)
Definition decimal_value (s : string) : option Z :=
  match s with
  | EmptyString => None
  | String _ _ => decimal_from 0 s
  end.

(** [s] contains a [':']. *)
Definition has_colon (s : string) : bool :=
  match split_last_colon s with
  | Some _ => true
  | None => false
  end.

(** The last character of [s] is [c]. *)
Fixpoint ends_with (c : ascii) (s : string) : bool :=
  match s with
  | EmptyString => false
  | String d EmptyString => Ascii.eqb d c
  | String _ rest => ends_with c rest
  end.

(** [s] is of the form [[...]]. *)
Definition bracketed (s : string) : bool :=
  match s with
  | String c rest => Ascii.eqb c "["%char && ends_with "]"%char rest
  | EmptyString => false
  end.

(** A host that contains colons is tolerated only if bracketed. *)
Definition host_ok (h : string) : bool :=
  if has_colon h then bracketed h else true.

(** Modelled from the spec: the companion parser of section 4.1, which is not
    part of the header.  It accepts a string of the form [host:port], split on
    the last [':']; a host containing colons must be bracketed; the port is a
    decimal number that must not exceed the 16-bit range.  On any other input
    it signals a [ParseError] with the offending text, and constructs no end
    point. *)
Definition parse_endpoint (s : string) : parse_result :=
  match split_last_colon s with
  | None => ParseError s
  | Some (h, ptxt) =>
      if host_ok h then
        match decimal_value ptxt with
        | Some n =>
            if n <=? UINT16_MAX then Parsed (EndPoint_make h n)
            else ParseError ptxt
        | None => ParseError ptxt
        end
      else ParseError h
  end.

(** * Properties *)

(** ** Conversion to [uint16_t] *)

Section Uint16.

Lemma to_uint16_range (z : Z) : is_uint16 (to_uint16 z).
Proof.
  unfold is_uint16, to_uint16, UINT16_MAX, uint16_modulus.
  pose proof (Z.mod_pos_bound z 65536 ltac:(lia)). lia.
Qed.

Lemma to_uint16_small (z : Z) : is_uint16 z -> to_uint16 z = z.
Proof.
  unfold is_uint16, to_uint16, UINT16_MAX, uint16_modulus. intros Hz.
  apply Z.mod_small. lia.
Qed.

Lemma to_uint16_idem (z : Z) : to_uint16 (to_uint16 z) = to_uint16 z.
Proof. apply to_uint16_small, to_uint16_range. Qed.

Lemma to_uint16_large (z : Z) : UINT16_MAX < z -> to_uint16 z <> z.
Proof.
  intros Hz Heq. pose proof (to_uint16_range z) as Hr.
  rewrite Heq in Hr. unfold is_uint16 in Hr. lia.
Qed.

End Uint16.

(** ** Construction *)

Section Construction.

Variable h : string.
Variable p : Z.

(** C1. Construction round-trip: the end point built by the two-argument
    constructor from a host string [h] and a 16-bit port [p] has [host] equal
    to [h] and [port] equal to [p]. *)
Theorem construction_round_trip :
  is_uint16 p ->
  host (EndPoint_make h p) = h /\ port (EndPoint_make h p) = p.
Proof.
  intros Hp. split.
  - reflexivity.
  - cbn [EndPoint_make port]. now apply to_uint16_small.
Qed.

(** C6. The host is stored verbatim: whatever the port argument, the [host]
    field of the constructed end point is exactly the string given to the
    constructor.  Nothing is normalised or case-folded (two arguments stored
    as the same string are the same string) and nothing is validated (the
    constructor returns on every string). *)
Theorem host_stored_verbatim :
  host (EndPoint_make h p) = h /\
  (forall h', host (EndPoint_make h' p) = host (EndPoint_make h p) -> h' = h) /\
  (exists e, construct h p = Returns e /\ host e = h).
Proof.
  split; [reflexivity | split].
  - intros h' Hsame. exact Hsame.
  - exists (EndPoint_make h p). split; reflexivity.
Qed.

(** C4. Construction never fails: for every host string and every value in
    the unsigned 16-bit range the two-argument constructor returns, with an
    end point holding its arguments, and throws nothing; the default
    constructor returns as well. *)
Theorem construction_never_fails :
  is_uint16 p ->
  (exists e, construct h p = Returns e /\ host e = h /\ port e = p) /\
  (forall what, construct h p <> Throws what) /\
  succeeded construct_default = true.
Proof.
  intros Hp. repeat split.
  - exists (EndPoint_make h p). repeat split.
    cbn [EndPoint_make port]. now apply to_uint16_small.
  - intros what Hthrow. discriminate Hthrow.
Qed.

(** C10. A port argument above 65535 is not rejected: the constructor returns
    an end point whose [port] is the argument modulo 65536, which is not the
    argument. *)
Theorem port_argument_wraps :
  UINT16_MAX < p ->
  construct h p = Returns (EndPoint_make h p) /\
  port (EndPoint_make h p) = p mod 65536 /\
  port (EndPoint_make h p) <> p.
Proof.
  intros Hp. repeat split.
  cbn [EndPoint_make port]. now apply to_uint16_large.
Qed.

End Construction.

Lemma construction_round_trip_witness :
  is_uint16 10800 /\
  host (EndPoint_make "127.0.0.1" 10800) = "127.0.0.1" /\
  port (EndPoint_make "127.0.0.1" 10800) = 10800.
Proof.
  split.
  - unfold is_uint16, UINT16_MAX. lia.
  - apply (construction_round_trip "127.0.0.1" 10800).
    unfold is_uint16, UINT16_MAX. lia.
Defined.

Lemma construction_never_fails_witness :
  (exists e, construct "" 0 = Returns e /\ host e = "" /\ port e = 0) /\
  (forall what, construct "" 0 <> Throws what) /\
  succeeded construct_default = true.
Proof.
  apply (construction_never_fails "" 0).
  unfold is_uint16, UINT16_MAX. lia.
Defined.

Lemma port_argument_wraps_witness :
  construct "example.com" 99999 = Returns (EndPoint_make "example.com" 99999) /\
  port (EndPoint_make "example.com" 99999) = 34463 /\
  port (EndPoint_make "example.com" 99999) <> 99999.
Proof.
  apply (port_argument_wraps "example.com" 99999).
  unfold UINT16_MAX. lia.
Defined.

(** Case is kept. *)
Example host_case_kept :
  host (EndPoint_make "LocalHost" 80) <> host (EndPoint_make "localhost" 80).
Proof. cbn. discriminate. Qed.

(** C2. Default construction yields the sentinel: [host] is the empty string,
    [port] is 0, and the default-constructed end point is the value that the
    two-argument constructor builds from the empty string and 0. *)
Theorem default_is_sentinel :
  host EndPoint_default = "" /\
  port EndPoint_default = 0 /\
  EndPoint_default = EndPoint_make "" 0.
Proof. repeat split. Qed.

(** C7. Port range: the [port] of every end point that a constructor
    produces, the default one or the two-argument one on any argument, lies
    between 0 and 65535 inclusive. *)
Theorem port_in_range (e : EndPoint) :
  constructed e -> 0 <= port e <= 65535.
Proof.
  intros [|h p].
  - unfold EndPoint_default, uint16_value_init. cbn [port]. lia.
  - cbn [EndPoint_make port]. apply to_uint16_range.
Qed.

Lemma port_in_range_witness :
  0 <= port (EndPoint_make "example.com" 99999) <= 65535.
Proof.
  apply (port_in_range (EndPoint_make "example.com" 99999)).
  apply constructed_make.
Defined.

(** C8. Copies are equal by value: for every end point [e1], that is every
    value of the struct, whose [port] member holds a [uint16_t], however the
    object came to hold its fields (by a constructor or by later
    assignments), the end point built by the two-argument constructor from the
    fields of [e1] is equal to [e1]. *)
Theorem copy_from_fields (e1 : EndPoint) :
  is_uint16 (port e1) -> EndPoint_make (host e1) (port e1) = e1.
Proof.
  destruct e1 as [h p]. cbn [host port]. intros Hp.
  unfold EndPoint_make. now rewrite (to_uint16_small p Hp).
Qed.

Lemma copy_from_fields_witness :
  is_uint16 (port (lifetime [WriteHost "a"; WritePort 1] EndPoint_default)) /\
  EndPoint_make
    (host (lifetime [WriteHost "a"; WritePort 1] EndPoint_default))
    (port (lifetime [WriteHost "a"; WritePort 1] EndPoint_default))
  = lifetime [WriteHost "a"; WritePort 1] EndPoint_default.
Proof.
  assert (Hp : is_uint16
                 (port (lifetime [WriteHost "a"; WritePort 1] EndPoint_default))).
  { change (0 <= 1 <= 65535). lia. }
  split.
  - exact Hp.
  - apply (copy_from_fields
             (lifetime [WriteHost "a"; WritePort 1] EndPoint_default)).
    exact Hp.
Defined.

(** ** Equality *)

Section Equality.

Lemma EndPoint_eqb_eq (e1 e2 : EndPoint) :
  EndPoint_eqb e1 e2 = true <-> e1 = e2.
Proof.
  unfold EndPoint_eqb. rewrite andb_true_iff, String.eqb_eq, Z.eqb_eq.
  destruct e1 as [h1 p1], e2 as [h2 p2]; cbn [host port]. split.
  - intros [-> ->]. reflexivity.
  - intros Heq. injection Heq as -> ->. split; reflexivity.
Qed.

Lemma EndPoint_eqb_fields (e1 e2 : EndPoint) :
  EndPoint_eqb e1 e2 = true <-> host e1 = host e2 /\ port e1 = port e2.
Proof.
  unfold EndPoint_eqb. now rewrite andb_true_iff, String.eqb_eq, Z.eqb_eq.
Qed.

Lemma EndPoint_eqb_refl (e : EndPoint) : EndPoint_eqb e e = true.
Proof. now apply EndPoint_eqb_eq. Qed.

Lemma EndPoint_eqb_sym (e1 e2 : EndPoint) :
  EndPoint_eqb e1 e2 = EndPoint_eqb e2 e1.
Proof.
  unfold EndPoint_eqb. now rewrite String.eqb_sym, Z.eqb_sym.
Qed.

Lemma EndPoint_eqb_trans (e1 e2 e3 : EndPoint) :
  EndPoint_eqb e1 e2 = true -> EndPoint_eqb e2 e3 = true ->
  EndPoint_eqb e1 e3 = true.
Proof.
  rewrite !EndPoint_eqb_eq. intros -> ->. reflexivity.
Qed.

(** C3. Equality of end points holds iff both fields agree: [e1 == e2]
    exactly when the hosts are the same string, compared exactly and with case,
    and the ports are the same number; the equality is reflexive, symmetric and
    transitive. *)
Theorem equality_is_fieldwise :
  (forall e1 e2,
     EndPoint_eqb e1 e2 = true <-> host e1 = host e2 /\ port e1 = port e2) /\
  (forall e, EndPoint_eqb e e = true) /\
  (forall e1 e2, EndPoint_eqb e1 e2 = EndPoint_eqb e2 e1) /\
  (forall e1 e2 e3,
     EndPoint_eqb e1 e2 = true -> EndPoint_eqb e2 e3 = true ->
     EndPoint_eqb e1 e3 = true) /\
  EndPoint_eqb (EndPoint_make "a" 1) (EndPoint_make "A" 1) = false.
Proof.
  split; [exact EndPoint_eqb_fields | split]; [exact EndPoint_eqb_refl | split].
  - exact EndPoint_eqb_sym.
  - split; [exact EndPoint_eqb_trans | reflexivity].
Qed.

End Equality.

Lemma equality_is_fieldwise_witness :
  EndPoint_eqb (EndPoint_make "a" 1) (EndPoint_make "a" 65537) = true <->
  host (EndPoint_make "a" 1) = host (EndPoint_make "a" 65537) /\
  port (EndPoint_make "a" 1) = port (EndPoint_make "a" 65537).
Proof.
  apply (proj1 equality_is_fieldwise).
Defined.

(** The three comparisons the specification lists. *)
Example eqb_same : EndPoint_eqb (EndPoint_make "a" 1) (EndPoint_make "a" 1) = true.
Proof. reflexivity. Qed.

Example eqb_other_port :
  EndPoint_eqb (EndPoint_make "a" 1) (EndPoint_make "a" 2) = false.
Proof. reflexivity. Qed.

Example eqb_other_host :
  EndPoint_eqb (EndPoint_make "a" 1) (EndPoint_make "b" 1) = false.
Proof. reflexivity. Qed.

Example eqb_default_sentinel :
  EndPoint_eqb EndPoint_default (EndPoint_make "" 0) = true.
Proof. reflexivity. Qed.

(** ** The fields over the lifetime of an object *)

Section Lifetime.

Lemma lifetime_app (l1 l2 : list access) (ep : EndPoint) :
  lifetime (l1 ++ l2) ep = lifetime l2 (lifetime l1 ep).
Proof.
  revert ep. induction l1 as [|a l1 IH]; intros ep; cbn [lifetime app].
  - reflexivity.
  - apply IH.
Qed.

Lemma perform_read (a : access) (ep : EndPoint) :
  is_read a = true -> snd (perform a ep) = ep.
Proof. destruct a; cbn; intros Hr; try discriminate Hr; reflexivity. Qed.

Lemma lifetime_reads (l : list access) (ep : EndPoint) :
  forallb is_read l = true -> lifetime l ep = ep.
Proof.
  induction l as [|a l IH]; cbn [forallb lifetime]; intros Hl.
  - reflexivity.
  - apply andb_true_iff in Hl as [Ha Hl].
    rewrite (perform_read a ep Ha). now apply IH.
Qed.

(** C5, as stated, fails: [port] is a public member that is not [const], and
    an assignment to it after construction changes the stored port. *)
Lemma port_assignable_after_construction :
  ~ (host (lifetime [WritePort 2] (EndPoint_make "a" 1))
       = host (EndPoint_make "a" 1) /\
     port (lifetime [WritePort 2] (EndPoint_make "a" 1))
       = port (EndPoint_make "a" 1)).
Proof.
  intros [_ Hport]. vm_compute in Hport. discriminate Hport.
Qed.

(** C5, amended. Over any sequence of accesses that only read, the object is
    unchanged: [host] and [port] keep the values given at construction.  The
    fields change by assignment only: assigning [host] stores the assigned
    string and keeps [port], assigning [port] stores the assigned value
    converted to [uint16_t] and keeps [host]. *)
Theorem fields_fixed_unless_assigned (l : list access) (ep : EndPoint) :
  forallb is_read l = true ->
  (lifetime l ep = ep /\
   host (lifetime l ep) = host ep /\ port (lifetime l ep) = port ep) /\
  (forall s,
     host (lifetime (l ++ [WriteHost s]) ep) = s /\
     port (lifetime (l ++ [WriteHost s]) ep) = port ep) /\
  (forall z,
     host (lifetime (l ++ [WritePort z]) ep) = host ep /\
     port (lifetime (l ++ [WritePort z]) ep) = to_uint16 z).
Proof.
  intros Hl. pose proof (lifetime_reads l ep Hl) as Hsame.
  split; [| split].
  - rewrite Hsame. repeat split.
  - intros s. rewrite lifetime_app, Hsame. split; reflexivity.
  - intros z. rewrite lifetime_app, Hsame. split; reflexivity.
Qed.

End Lifetime.

Lemma fields_fixed_unless_assigned_witness :
  (lifetime [ReadHost; ReadPort; ReadHost] (EndPoint_make "127.0.0.1" 10800)
     = EndPoint_make "127.0.0.1" 10800 /\
   host (lifetime [ReadHost; ReadPort; ReadHost] (EndPoint_make "127.0.0.1" 10800))
     = host (EndPoint_make "127.0.0.1" 10800) /\
   port (lifetime [ReadHost; ReadPort; ReadHost] (EndPoint_make "127.0.0.1" 10800))
     = port (EndPoint_make "127.0.0.1" 10800)) /\
  (forall s,
     host (lifetime ([ReadHost; ReadPort; ReadHost] ++ [WriteHost s])
             (EndPoint_make "127.0.0.1" 10800)) = s /\
     port (lifetime ([ReadHost; ReadPort; ReadHost] ++ [WriteHost s])
             (EndPoint_make "127.0.0.1" 10800))
       = port (EndPoint_make "127.0.0.1" 10800)) /\
  (forall z,
     host (lifetime ([ReadHost; ReadPort; ReadHost] ++ [WritePort z])
             (EndPoint_make "127.0.0.1" 10800))
       = host (EndPoint_make "127.0.0.1" 10800) /\
     port (lifetime ([ReadHost; ReadPort; ReadHost] ++ [WritePort z])
             (EndPoint_make "127.0.0.1" 10800)) = to_uint16 z).
Proof.
  apply (fields_fixed_unless_assigned [ReadHost; ReadPort; ReadHost]
           (EndPoint_make "127.0.0.1" 10800)).
  reflexivity.
Defined.

(** ** The companion parser *)

Section Parser.

Lemma digit_not_colon (c : ascii) :
  is_digit c = true -> Ascii.eqb c colon = false.
Proof.
  destruct c as [[] [] [] [] [] [] [] []]; vm_compute;
    intros Hd; try discriminate Hd; reflexivity.
Qed.

Lemma digit_value_nonneg (c : ascii) : is_digit c = true -> 0 <= digit_value c.
Proof.
  unfold is_digit, digit_value. cbv zeta. intros Hd.
  apply andb_true_iff in Hd as [Hlo _]. apply Z.leb_le in Hlo. lia.
Qed.

Lemma decimal_from_no_colon (s : string) :
  forall acc n, decimal_from acc s = Some n -> split_last_colon s = None.
Proof.
  induction s as [|c rest IH]; intros acc n Hdec; cbn in *.
  - reflexivity.
  - destruct (is_digit c) eqn:Hd; [| discriminate Hdec].
    rewrite (IH _ _ Hdec), (digit_not_colon c Hd). reflexivity.
Qed.

Lemma decimal_from_nonneg (s : string) :
  forall acc n, 0 <= acc -> decimal_from acc s = Some n -> 0 <= n.
Proof.
  induction s as [|c rest IH]; intros acc n Hacc Hdec; cbn in Hdec.
  - injection Hdec as <-. exact Hacc.
  - destruct (is_digit c) eqn:Hd; [| discriminate Hdec].
    pose proof (digit_value_nonneg c Hd) as Hv.
    apply (IH (10 * acc + digit_value c) n); [lia | exact Hdec].
Qed.

Lemma decimal_value_no_colon (s : string) (n : Z) :
  decimal_value s = Some n -> split_last_colon s = None.
Proof.
  destruct s as [|c rest]; [discriminate |].
  unfold decimal_value. apply decimal_from_no_colon.
Qed.

Lemma decimal_value_nonneg (s : string) (n : Z) :
  decimal_value s = Some n -> 0 <= n.
Proof.
  destruct s as [|c rest]; [discriminate |].
  unfold decimal_value. apply decimal_from_nonneg. lia.
Qed.

(** Splitting finds the last colon: nothing after it is a colon. *)
Lemma split_last_colon_sound (s h ptxt : string) :
  split_last_colon s = Some (h, ptxt) ->
  s = h ++ ":" ++ ptxt /\ split_last_colon ptxt = None.
Proof.
  revert h ptxt. induction s as [|c rest IH]; intros h ptxt Hs; cbn in Hs.
  - discriminate Hs.
  - destruct (split_last_colon rest) as [[h' p']|] eqn:Hrest.
    + injection Hs as <- <-. destruct (IH h' p' eq_refl) as [-> Hnone].
      split; [reflexivity | exact Hnone].
    + destruct (Ascii.eqb c colon) eqn:Hc; [| discriminate Hs].
      injection Hs as <- <-. apply Ascii.eqb_eq in Hc. subst c.
      split; [reflexivity | exact Hrest].
Qed.

Lemma split_last_colon_complete (h ptxt : string) :
  split_last_colon ptxt = None ->
  split_last_colon (h ++ ":" ++ ptxt) = Some (h, ptxt).
Proof.
  intros Hnone. induction h as [|c h IH]; cbn.
  - rewrite Hnone. reflexivity.
  - cbn in IH. rewrite IH. reflexivity.
Qed.

(** C9. The companion parser accepts ["host:port"]: ["example.com:33000"]
    yields the end point of host ["example.com"] and port 33000;
    ["example.com:99999"] fails with a [ParseError]; every input whose port
    text denotes a number above 65535 fails with a [ParseError] that lists the
    offending text; and an end point is produced only with the host and the
    number written in the input, the number being within the 16-bit range. *)
Theorem parser_contract :
  parse_endpoint "example.com:33000"
    = Parsed (EndPoint_make "example.com" 33000) /\
  parse_endpoint "example.com:99999" = ParseError "99999" /\
  (forall h ptxt n,
     decimal_value ptxt = Some n -> UINT16_MAX < n ->
     parse_endpoint (h ++ ":" ++ ptxt)
       = ParseError (if host_ok h then ptxt else h)) /\
  (forall s e,
     parse_endpoint s = Parsed e ->
     exists h ptxt n,
       s = h ++ ":" ++ ptxt /\ decimal_value ptxt = Some n /\
       is_uint16 n /\ host e = h /\ port e = n).
Proof.
  split; [reflexivity | split]; [reflexivity | split].
  - intros h ptxt n Hdec Hbig. unfold parse_endpoint.
    rewrite (split_last_colon_complete h ptxt (decimal_value_no_colon _ _ Hdec)).
    destruct (host_ok h); [| reflexivity].
    rewrite Hdec. destruct (n <=? UINT16_MAX) eqn:Hle; [| reflexivity].
    apply Z.leb_le in Hle. lia.
  - intros s e. unfold parse_endpoint.
    destruct (split_last_colon s) as [[h ptxt]|] eqn:Hs; [| discriminate].
    destruct (host_ok h); [| discriminate].
    destruct (decimal_value ptxt) as [n|] eqn:Hdec; [| discriminate].
    destruct (n <=? UINT16_MAX) eqn:Hle; [| discriminate].
    intros Hp. injection Hp as <-. apply Z.leb_le in Hle.
    assert (Hn : is_uint16 n).
    { split; [exact (decimal_value_nonneg _ _ Hdec) | exact Hle]. }
    exists h, ptxt, n. destruct (split_last_colon_sound _ _ _ Hs) as [-> _].
    repeat split; try assumption; try apply Hn.
    cbn [EndPoint_make port]. now apply to_uint16_small.
Qed.

End Parser.

Lemma parser_contract_witness :
  parse_endpoint ("example.com" ++ ":" ++ "70000") = ParseError "70000".
Proof.
  apply (proj1 (proj2 (proj2 parser_contract)) "example.com" "70000" 70000).
  - reflexivity.
  - unfold UINT16_MAX. lia.
Defined.

(** * Further properties of the struct *)

(** ** Which arguments build the same end point *)

Section SameEndPoint.

Lemma to_uint16_shift (r k : Z) : to_uint16 (r + k * 65536) = to_uint16 r.
Proof. unfold to_uint16, uint16_modulus. apply Z.mod_add. lia. Qed.

Lemma EndPoint_make_eq_iff (h1 h2 : string) (p1 p2 : Z) :
  EndPoint_make h1 p1 = EndPoint_make h2 p2 <->
  h1 = h2 /\ to_uint16 p1 = to_uint16 p2.
Proof.
  unfold EndPoint_make. split.
  - intros Heq. injection Heq as Hh Hp. split; assumption.
  - intros [-> ->]. reflexivity.
Qed.

(** X1. Two calls of the two-argument constructor build the same end point
    exactly when the host arguments are the same string and the port arguments
    agree modulo 65536: the constructor cannot tell apart port arguments that
    differ by a multiple of 65536. *)
Theorem same_end_point_iff (h1 h2 : string) (p1 p2 : Z) :
  EndPoint_make h1 p1 = EndPoint_make h2 p2 <->
  h1 = h2 /\ p1 mod 65536 = p2 mod 65536.
Proof. exact (EndPoint_make_eq_iff h1 h2 p1 p2). Qed.

(** X2. On ports within the 16-bit range the two-argument constructor is
    injective: end points built from different hosts or from different ports
    in 0..65535 are different. *)
Theorem constructor_injective (h1 h2 : string) (p1 p2 : Z) :
  is_uint16 p1 -> is_uint16 p2 ->
  EndPoint_make h1 p1 = EndPoint_make h2 p2 -> h1 = h2 /\ p1 = p2.
Proof.
  intros H1 H2 Heq. apply EndPoint_make_eq_iff in Heq as [Hh Hp].
  rewrite (to_uint16_small p1 H1), (to_uint16_small p2 H2) in Hp.
  split; assumption.
Qed.

(** X3. The two-argument constructor builds the value of the default
    constructor exactly when the host argument is empty and the port argument
    is a multiple of 65536: besides [EndPoint("", 0)], a call such as
    [EndPoint("", 65536)] gives the default end point too. *)
Theorem builds_default_iff (h : string) (p : Z) :
  EndPoint_make h p = EndPoint_default <-> h = "" /\ p mod 65536 = 0.
Proof.
  change EndPoint_default with (EndPoint_make "" 0).
  rewrite EndPoint_make_eq_iff. reflexivity.
Qed.

(** X4. The stored port is the representative in 0..65535 of the argument's
    class modulo 65536, for arguments above the range and for negative ones
    alike: with [r] in 0..65535 and any integer [k], the argument
    [r + k * 65536] is stored as [r], and gives the end point that [r]
    gives. *)
Theorem port_representative (h : string) (r k : Z) :
  is_uint16 r ->
  port (EndPoint_make h (r + k * 65536)) = r /\
  EndPoint_make h (r + k * 65536) = EndPoint_make h r.
Proof.
  intros Hr. unfold EndPoint_make. cbn [port].
  rewrite to_uint16_shift. split; [now apply to_uint16_small | reflexivity].
Qed.

End SameEndPoint.

Lemma constructor_injective_witness :
  host (EndPoint_make "a" 80) = "a" /\ 80 = port (EndPoint_make "a" 80).
Proof.
  apply (constructor_injective (host (EndPoint_make "a" 80)) "a"
           80 (port (EndPoint_make "a" 80))).
  - unfold is_uint16, UINT16_MAX. lia.
  - apply to_uint16_range.
  - reflexivity.
Defined.

Lemma port_representative_witness :
  port (EndPoint_make "a" (65535 + (-1) * 65536)) = 65535 /\
  EndPoint_make "a" (65535 + (-1) * 65536) = EndPoint_make "a" 65535.
Proof.
  apply (port_representative "a" 65535 (-1)).
  unfold is_uint16, UINT16_MAX. lia.
Defined.

(** ** Assignments over the lifetime of an object *)

Section Assignments.

Lemma perform_port_range (a : access) (ep : EndPoint) :
  well_typed a -> is_uint16 (port ep) ->
  is_uint16 (port (snd (perform a ep))).
Proof.
  destruct a as [| |s|z|e]; cbn [perform snd port well_typed];
    intros Ha Hp; trivial.
  apply to_uint16_range.
Qed.

(** X5. The port stays within the 16-bit range over the whole lifetime of an
    object: starting from an end point whose port is in 0..65535 (every
    constructed one is), after any sequence of reads, assignments to [host],
    assignments of any integer to [port] and copy assignments from end points,
    the stored port is in 0..65535. *)
Theorem port_range_kept (l : list access) (ep : EndPoint) :
  is_uint16 (port ep) -> Forall well_typed l ->
  is_uint16 (port (lifetime l ep)).
Proof.
  intros Hp Hl. revert ep Hp.
  induction Hl as [|a l Ha Hl IH]; intros ep Hp; cbn [lifetime].
  - exact Hp.
  - apply IH. now apply perform_port_range.
Qed.

(** X6. Assigning both fields, in either order, gives the end point that the
    two-argument constructor builds from the assigned values, whatever the
    object held and whatever was done to it before: an object holds nothing
    besides its two fields. *)
Theorem assign_both_is_construct
  (l : list access) (ep : EndPoint) (s : string) (z : Z) :
  lifetime (l ++ [WriteHost s; WritePort z]) ep = EndPoint_make s z /\
  lifetime (l ++ [WritePort z; WriteHost s]) ep = EndPoint_make s z.
Proof.
  rewrite !lifetime_app. split; reflexivity.
Qed.

End Assignments.

Lemma port_range_kept_witness :
  is_uint16
    (port (lifetime [WritePort 99999; ReadPort; WriteHost "b";
                     CopyAssign (EndPoint_make "c" (-1)); WritePort (-7)]
             EndPoint_default)).
Proof.
  apply (port_range_kept
           [WritePort 99999; ReadPort; WriteHost "b";
            CopyAssign (EndPoint_make "c" (-1)); WritePort (-7)]
           EndPoint_default).
  - unfold is_uint16, UINT16_MAX, EndPoint_default, uint16_value_init.
    cbn [port]. lia.
  - repeat (apply Forall_cons; [first [exact I | apply to_uint16_range] |]).
    apply Forall_nil.
Defined.
